(** * The Ark: adoption lifecycle

    A shallow embedding of the route handlers that touch
    [animals.is_available] and [adoption_applications.status]:

    - [POST /api/adoptions]            (backend/routes/adoptions.js)
    - [PUT /api/adoptions/:id/status]  (backend/routes/adoptions.js)
    - [DELETE /api/adoptions/:id]      (backend/routes/adoptions.js)
    - [PUT /api/animals/:id]           (backend/routes/animals.js)

    The two MySQL tables are finite maps keyed by the primary key; every
    SQL statement a handler issues is one function on the database, and a
    handler is the composition of its statements, returning the JSON
    response together with the database it leaves behind.  Statements are
    run one after the other on a single connection: the model is the
    sequential behaviour of one request.

    Two layers are kept apart.  A handler with its gate is a function of
    the request object, [req.user] included, whoever stored it there.  A
    route is the handler behind the middleware chain the router gives it:
    the chains of [PUT /api/adoptions/:id/status], [PUT /api/animals/:id]
    and [DELETE /api/animals/:id] start with [requireStaff] or
    [requireAdmin] and contain no [verifyToken], and server.js mounts the
    routers without any authentication middleware, so on these routes
    [req.user] is not set when the gate reads it.

    Strings are sequences of characters, one [ascii] for each character
    (code below 256), so that [String.length] is the number of characters. *)

From Stdlib Require Import ZArith String List Bool Lia.
From stdpp Require Import base option gmap strings.

Open Scope Z_scope.
Open Scope string_scope.

(** ** Rows (database/schema.sql) *)

(** [users.role ENUM('user', 'admin', 'volunteer')] *)
Inductive role := role_user | role_admin | role_volunteer.

(** [adoption_applications.status
     ENUM('pending', 'approved', 'rejected', 'completed')] *)
Inductive app_status := pending | approved | rejected | completed.

#[global] Instance role_eq_dec : EqDecision role.
Proof. solve_decision. Defined.

#[global] Instance app_status_eq_dec : EqDecision app_status.
Proof. solve_decision. Defined.

(** [req.user], as [verifyToken] stores it on the request. *)
Record user := { u_id : Z; u_role : role }.

(** A JSON scalar of a request body; a number is [mantissa * 10^exponent]. *)
Inductive json :=
| JNull
| JBool (b : bool)
| JNum (mantissa exponent : Z)
| JStr (s : string).

(** A row of [animals].  [is_available] and [updated_at] are the columns the
    handlers below read or write by name; [columns] holds the remaining
    editable columns ([name], [species], ..., [longitude]) by column name. *)
Record animal := {
  is_available : bool;
  updated_at : Z;
  columns : gmap string json
}.

(** The questionnaire columns of [adoption_applications]. *)
Record application_form := {
  housing_type : string;
  has_yard : bool;
  has_other_pets : bool;
  other_pets_description : option string;
  experience_with_pets : string;
  reason_for_adoption : string;
  work_schedule : string;
  emergency_contact_name : string;
  emergency_contact_phone : string;
  veterinarian_name : option string;
  veterinarian_phone : option string
}.

(** A row of [adoption_applications] (the [id] is the key of the table). *)
Record adoption_application := {
  user_id : Z;
  animal_id : Z;
  status : app_status;
  form : application_form;
  application_date : Z;
  reviewed_by : option Z;
  reviewed_date : option Z;
  admin_notes : option string
}.

(** The two tables and the AUTO_INCREMENT counter of
    [adoption_applications]. *)
Record database := {
  animals : gmap Z animal;
  adoption_applications : gmap Z adoption_application;
  auto_increment : Z
}.

(** ** Responses: [res.status(code).json({ success, message, ... })] *)

Record response := {
  code : Z;
  success : bool;
  message : string
}.

Definition json_response (c : Z) (ok : bool) (msg : string) : response :=
  {| code := c; success := ok; message := msg |}.

(** ** middleware/auth.js *)

(** [requireRole(...roles)], applied to [req.user]: [inr usr] stands for
    [next()], the handler then running with [req.user = usr]. *)
Definition requireRole (roles : list role) (u : option user) : response + user :=
  match u with
  | None => inl (json_response 401 false "Authentication required.")
  | Some usr =>
      if bool_decide (u_role usr ∈ roles) then inr usr
      else inl (json_response 403 false "Access denied. Insufficient permissions.")
  end.

Definition requireAdmin := requireRole [role_admin].
Definition requireStaff := requireRole [role_admin; role_volunteer].

(** ** SQL statements *)

Module Sql.

(** [SELECT ... FROM animals WHERE id = ?] through [getOne]. *)
Definition select_animal (aid : Z) (db : database) : option animal :=
  animals db !! aid.

(** [SELECT ... FROM adoption_applications WHERE id = ?] through [getOne]. *)
Definition select_application (id : Z) (db : database)
  : option adoption_application :=
  adoption_applications db !! id.

(** The rows matched by
    [WHERE user_id = ? AND animal_id = ? AND status = "pending"]. *)
Definition pending_of (uid aid : Z) (db : database)
  : gmap Z adoption_application :=
  filter (λ kv, user_id kv.2 = uid ∧ animal_id kv.2 = aid ∧ status kv.2 = pending)
         (adoption_applications db).

(** [getOne] of that query is [results[0] || null]; the handler only tests
    the result for truthiness. *)
Definition has_pending (uid aid : Z) (db : database) : bool :=
  bool_decide (pending_of uid aid db ≠ ∅).

(** [pool.execute(query, params)] (mysql2) refuses a bind parameter that is
    [undefined] ("Bind parameters must not contain undefined. To pass SQL
    NULL specify JS null"): [executeQuery] rethrows and the [catch] of the
    handler answers 500.  This is the test on the parameters that come
    from optional body fields, [None] being an absent field. *)
Definition all_defined (params : list (option string)) : bool :=
  forallb (λ param, match param with Some _ => true | None => false end) params.

(** [INSERT INTO adoption_applications (user_id, animal_id, ...) VALUES ...]:
    the columns not listed take their defaults, the id is the counter. *)
Definition insert_application (uid aid : Z) (f : application_form) (now : Z)
    (db : database) : Z * database :=
  let row := {| user_id := uid; animal_id := aid; status := pending; form := f;
                application_date := now; reviewed_by := None;
                reviewed_date := None; admin_notes := None |} in
  (auto_increment db,
   {| animals := animals db;
      adoption_applications := <[auto_increment db := row]> (adoption_applications db);
      auto_increment := auto_increment db + 1 |}).

(** The SET clause of a review: status, notes ([None] is NULL), reviewer and
    review date; the other columns keep their values. *)
Definition review (st : app_status) (notes : option string) (reviewer now : Z)
    (a : adoption_application) : adoption_application :=
  {| user_id := user_id a; animal_id := animal_id a; status := st; form := form a;
     application_date := application_date a; reviewed_by := Some reviewer;
     reviewed_date := Some now; admin_notes := notes |}.

(** [UPDATE adoption_applications
     SET status = ?, admin_notes = ?, reviewed_by = ?,
         reviewed_date = CURRENT_TIMESTAMP
     WHERE id = ?] *)
Definition update_status (id : Z) (st : app_status) (notes : option string)
    (reviewer now : Z) (db : database) : database :=
  {| animals := animals db;
     adoption_applications :=
       alter (review st notes reviewer now) id (adoption_applications db);
     auto_increment := auto_increment db |}.

Definition adopted_note : string := "Animal was adopted by another applicant".

(** [UPDATE adoption_applications
     SET status = 'rejected',
         admin_notes = 'Animal was adopted by another applicant',
         reviewed_by = ?, reviewed_date = CURRENT_TIMESTAMP
     WHERE animal_id = ? AND id != ? AND status = 'pending'] *)
Definition reject_other_pending (reviewer aid id now : Z) (db : database)
    : database :=
  {| animals := animals db;
     adoption_applications :=
       map_imap (λ k a,
         Some (if bool_decide (animal_id a = aid ∧ k ≠ id ∧ status a = pending)
               then review rejected (Some adopted_note) reviewer now a
               else a))
         (adoption_applications db);
     auto_increment := auto_increment db |}.

(** [animals.updated_at] is declared [ON UPDATE CURRENT_TIMESTAMP]: it moves
    when an UPDATE changes another column of the row. *)
Definition set_available (b : bool) (now : Z) (a : animal) : animal :=
  if bool_decide (is_available a = b) then a
  else {| is_available := b; updated_at := now; columns := columns a |}.

(** [UPDATE animals SET is_available = FALSE|TRUE WHERE id = ?] *)
Definition update_availability (aid : Z) (b : bool) (now : Z) (db : database)
    : database :=
  {| animals := alter (set_available b now) aid (animals db);
     adoption_applications := adoption_applications db;
     auto_increment := auto_increment db |}.

(** [DELETE FROM adoption_applications WHERE id = ?] *)
Definition delete_application (id : Z) (db : database) : database :=
  {| animals := animals db;
     adoption_applications := delete id (adoption_applications db);
     auto_increment := auto_increment db |}.

(** [DELETE FROM animals WHERE id = ?].  A deleted animal takes the
    applications that reference it along:
    [FOREIGN KEY (animal_id) REFERENCES animals(id) ON DELETE CASCADE]. *)
Definition delete_animal_cascade (aid : Z) (db : database) : database :=
  match animals db !! aid with
  | None => db
  | Some _ =>
      {| animals := delete aid (animals db);
         adoption_applications :=
           filter (λ kv : Z * adoption_application, animal_id kv.2 ≠ aid)
                  (adoption_applications db);
         auto_increment := auto_increment db |}
  end.

(** [SELECT aa.*, ... FROM adoption_applications aa
     JOIN animals a ON aa.animal_id = a.id
     JOIN users u ON aa.user_id = u.id
     LEFT JOIN users reviewer ON aa.reviewed_by = reviewer.id
     WHERE aa.id = ?] through [getOne].  The inner join on [animals] needs
    the animal row; the [users] rows are not part of [database], the row of
    the applicant is taken to exist ([user_id] is a foreign key). *)
Definition select_application_joined (id : Z) (db : database)
  : option adoption_application :=
  match adoption_applications db !! id with
  | None => None
  | Some a => match animals db !! animal_id a with
              | None => None
              | Some _ => Some a
              end
  end.

End Sql.

(** ** Requests *)

(** The outcome of [verifyToken]: its four 401 answers, or the user row it
    stores in [req.user]. *)
Inductive token_check :=
| no_token
| token_invalid
| token_user_missing
| account_deactivated
| token_user (u : user).

Definition verifyToken (t : token_check) : response + user :=
  match t with
  | no_token => inl (json_response 401 false "Access denied. No token provided.")
  | token_invalid => inl (json_response 401 false "Token is not valid.")
  | token_user_missing =>
      inl (json_response 401 false "Token is not valid. User not found.")
  | account_deactivated => inl (json_response 401 false "Account is deactivated.")
  | token_user u => inr u
  end.

(** [POST /api/adoptions].  [create_errors] is what [validationResult(req)]
    returns: the errors the express-validator chain of the route recorded
    on the request. *)
Record create_request := {
  create_token : token_check;
  create_errors : list string;
  create_animal_id : Z;
  create_form : application_form
}.

(** The request object of [PUT /api/adoptions/:id/status] as the gate and
    the handler read it: [req.user] ([None] when no middleware has set it),
    [req.params.id], [req.body.status] and [req.body.admin_notes] ([None]
    when absent). *)
Record status_request := {
  status_user : option user;
  status_id : Z;
  status_body : option string;
  status_notes : option string
}.

(** [DELETE /api/adoptions/:id] *)
Record delete_request := {
  delete_token : token_check;
  delete_id : Z
}.

(** The request object of [PUT /api/animals/:id]: [req.user] ([None] when
    no middleware has set it), [req.body.is_available] (a JSON boolean) and
    the other properties of [req.body]. *)
Record animal_request := {
  animal_user : option user;
  animal_errors : list string;
  animal_param_id : Z;
  body_is_available : option bool;
  body_fields : gmap string json
}.

(** ** backend/routes/adoptions.js *)

(** [body('status').isIn(['pending', 'approved', 'rejected', 'completed'])],
    with the value of the ENUM column the accepted string denotes. *)
Definition status_of_string (s : string) : option app_status :=
  if String.eqb s "pending" then Some pending
  else if String.eqb s "approved" then Some approved
  else if String.eqb s "rejected" then Some rejected
  else if String.eqb s "completed" then Some completed
  else None.

Definition string_of_status (st : app_status) : string :=
  match st with
  | pending => "pending"
  | approved => "approved"
  | rejected => "rejected"
  | completed => "completed"
  end.

(** [body('admin_notes').optional().isLength({ max: 1000 })]: at most 1000
    characters. *)
Definition notes_ok (notes : option string) : bool :=
  match notes with
  | None => true
  | Some s => (String.length s <=? 1000)%nat
  end.

(** The validated status of a request, [None] when [validationResult(req)]
    is not empty. *)
Definition validated_status (req : status_request) : option app_status :=
  match status_body req with
  | None => None
  | Some s => if notes_ok (status_notes req) then status_of_string s else None
  end.

(** [router.post('/', [verifyToken, ...], async (req, res) => ...)]: submit
    an adoption application.  The three optional fields of the body are
    bound into the INSERT as they are. *)
Definition post_adoption (req : create_request) (now : Z) (db : database)
    : response * database :=
  match verifyToken (create_token req) with
  | inl resp => (resp, db)
  | inr usr =>
    match create_errors req with
    | _ :: _ => (json_response 400 false "Validation errors", db)
    | [] =>
      match Sql.select_animal (create_animal_id req) db with
      | None => (json_response 404 false "Animal not found", db)
      | Some a =>
        if negb (is_available a) then
          (json_response 400 false
             "This animal is no longer available for adoption", db)
        else if Sql.has_pending (u_id usr) (create_animal_id req) db then
          (json_response 400 false
             "You already have a pending application for this animal", db)
        else if negb (Sql.all_defined
                        [other_pets_description (create_form req);
                         veterinarian_name (create_form req);
                         veterinarian_phone (create_form req)]) then
          (json_response 500 false "Server error submitting application", db)
        else
          let '(_, db') :=
            Sql.insert_application (u_id usr) (create_animal_id req)
                                   (create_form req) now db in
          (json_response 201 true "Adoption application submitted successfully",
           db')
      end
    end
  end.

(** The first block after the primary UPDATE: "If application is approved,
    mark animal as unavailable" and "Reject all other pending applications
    for this animal". *)
Definition approval_effects (st current : app_status)
    (reviewer aid id now : Z) (db : database) : database :=
  if bool_decide (st = approved) && negb (bool_decide (current = approved)) then
    Sql.reject_other_pending reviewer aid id now
      (Sql.update_availability aid false now db)
  else db.

(** "If application is rejected or completed, and it was previously
    approved, make animal available again". *)
Definition release_effects (st current : app_status) (aid now : Z)
    (db : database) : database :=
  if (bool_decide (st = rejected) || bool_decide (st = completed))
     && bool_decide (current = approved) then
    Sql.update_availability aid true now db
  else db.

(** [router.put('/:id/status', [requireStaff, ...], async (req, res) => ...)]:
    update the status of an application, as a function of the request
    object.  [admin_notes] is bound into the primary UPDATE as it is. *)
Definition put_status (req : status_request) (now : Z) (db : database)
    : response * database :=
  match requireStaff (status_user req) with
  | inl resp => (resp, db)
  | inr reviewer =>
    match validated_status req with
    | None => (json_response 400 false "Validation errors", db)
    | Some st =>
      match Sql.select_application (status_id req) db with
      | None => (json_response 404 false "Application not found", db)
      | Some application =>
        if negb (Sql.all_defined [status_notes req]) then
          (json_response 500 false "Server error updating application status", db)
        else
        let current_status := status application in
        let db1 :=
          Sql.update_status (status_id req) st (status_notes req)
                            (u_id reviewer) now db in
        let db2 :=
          approval_effects st current_status (u_id reviewer)
                           (animal_id application) (status_id req) now db1 in
        let db3 :=
          release_effects st current_status (animal_id application) now db2 in
        (json_response 200 true
           ("Application " ++ string_of_status st ++ " successfully"), db3)
      end
    end
  end.

(** [router.delete('/:id', verifyToken, async (req, res) => ...)]: "Users
    can only delete their own pending applications, admins can delete
    any". *)
Definition delete_adoption (req : delete_request) (db : database)
    : response * database :=
  match verifyToken (delete_token req) with
  | inl resp => (resp, db)
  | inr usr =>
    match Sql.select_application (delete_id req) db with
    | None => (json_response 404 false "Application not found", db)
    | Some application =>
      if bool_decide (u_role usr = role_user)
         && negb (bool_decide (user_id application = u_id usr)) then
        (json_response 403 false "Access denied", db)
      else if bool_decide (u_role usr = role_user)
              && negb (bool_decide (status application = pending)) then
        (json_response 400 false "Cannot delete non-pending applications", db)
      else
        (json_response 200 true "Application deleted successfully",
         Sql.delete_application (delete_id req) db)
    end
  end.

(** ** backend/routes/animals.js *)

(** [allowedFields] without ['is_available'], which the request carries
    apart. *)
Definition allowedFields : list string :=
  ["name"; "species"; "breed"; "age_years"; "age_months"; "gender"; "size";
   "color"; "description"; "personality"; "special_needs"; "adoption_fee";
   "location"; "latitude"; "longitude"].

(** The loop that builds [updateFields] from [req.body]. *)
Definition updateFields (req : animal_request) : gmap string json :=
  filter (λ kv, kv.1 ∈ allowedFields) (body_fields req).

(** [Object.keys(updateFields).length === 0] *)
Definition no_update (req : animal_request) : bool :=
  match body_is_available req with
  | Some _ => false
  | None => bool_decide (updateFields req = ∅)
  end.

(** [UPDATE animals SET <updateFields>, updated_at = CURRENT_TIMESTAMP
     WHERE id = ?] *)
Definition set_fields (req : animal_request) (now : Z) (a : animal) : animal :=
  {| is_available := default (is_available a) (body_is_available req);
     updated_at := now;
     columns := updateFields req ∪ columns a |}.

(** [router.put('/:id', [requireStaff, ...], async (req, res) => ...)]:
    update an animal. *)
Definition put_animal (req : animal_request) (now : Z) (db : database)
    : response * database :=
  match requireStaff (animal_user req) with
  | inl resp => (resp, db)
  | inr _ =>
    match animal_errors req with
    | _ :: _ => (json_response 400 false "Validation errors", db)
    | [] =>
      if no_update req then
        (json_response 400 false "No valid fields to update", db)
      else
        match Sql.select_animal (animal_param_id req) db with
        | None => (json_response 404 false "Animal not found", db)
        | Some _ =>
          (json_response 200 true "Animal updated successfully",
           {| animals := alter (set_fields req now) (animal_param_id req)
                               (animals db);
              adoption_applications := adoption_applications db;
              auto_increment := auto_increment db |})
        end
    end
  end.

(** [router.delete('/:id', requireAdmin, async (req, res) => ...)]: delete an
    animal. *)
Record animal_delete_request := {
  remover : option user;
  remove_id : Z
}.

Definition delete_animal (req : animal_delete_request) (db : database)
    : response * database :=
  match requireAdmin (remover req) with
  | inl resp => (resp, db)
  | inr _ =>
    match Sql.select_animal (remove_id req) db with
    | None => (json_response 404 false "Animal not found", db)
    | Some _ =>
      (json_response 200 true "Animal deleted successfully",
       Sql.delete_animal_cascade (remove_id req) db)
    end
  end.

(** ** Reading applications (backend/routes/adoptions.js) *)

(** [GET /api/adoptions/:id] *)
Record read_request := {
  read_token : token_check;
  read_id : Z
}.

(** [router.get('/:id', verifyToken, async (req, res) => ...)]: the answer
    and the [application] it carries.  "Users can only view their own
    applications, staff can view all".  The success answer has no
    message. *)
Definition get_adoption (req : read_request) (db : database)
    : response * option adoption_application :=
  match verifyToken (read_token req) with
  | inl resp => (resp, None)
  | inr usr =>
    match Sql.select_application_joined (read_id req) db with
    | None => (json_response 404 false "Application not found", None)
    | Some application =>
      if bool_decide (u_role usr = role_user)
         && negb (bool_decide (user_id application = u_id usr)) then
        (json_response 403 false "Access denied", None)
      else (json_response 200 true "", Some application)
    end
  end.

(** [GET /api/adoptions]: the validated [status] and [animal_id] of
    [req.query], [None] when absent. *)
Record list_request := {
  list_token : token_check;
  list_errors : list string;
  query_status : option app_status;
  query_animal_id : option Z
}.

(** The [whereConditions] the handler collects, joined by [AND]: "Regular
    users can only see their own applications", then the two optional
    filters. *)
Definition whereClause (usr : user) (req : list_request)
    (kv : Z * adoption_application) : Prop :=
  (u_role usr = role_user → user_id kv.2 = u_id usr) ∧
  (∀ st, query_status req = Some st → status kv.2 = st) ∧
  (∀ aid, query_animal_id req = Some aid → animal_id kv.2 = aid).

#[global] Instance whereClause_dec usr req kv : Decision (whereClause usr req kv).
Proof.
  unfold whereClause.
  destruct (query_status req) as [st|], (query_animal_id req) as [aid|];
    (apply and_dec; [apply _|apply and_dec]).
  - destruct (decide (status kv.2 = st)) as [H|H];
      [left; intros ? [= <-]; exact H | right; intros H'; exact (H (H' st eq_refl))].
  - destruct (decide (animal_id kv.2 = aid)) as [H|H];
      [left; intros ? [= <-]; exact H | right; intros H'; exact (H (H' aid eq_refl))].
  - destruct (decide (status kv.2 = st)) as [H|H];
      [left; intros ? [= <-]; exact H | right; intros H'; exact (H (H' st eq_refl))].
  - left; intros ? [=].
  - left; intros ? [=].
  - destruct (decide (animal_id kv.2 = aid)) as [H|H];
      [left; intros ? [= <-]; exact H | right; intros H'; exact (H (H' aid eq_refl))].
  - left; intros ? [=].
  - left; intros ? [=].
Defined.



(** ** Tokens (middleware/auth.js) *)

(** A row of [users], as [verifyToken] selects it: [role] and [is_active];
    the id is the key. *)
Record account := {
  acct_role : role;
  is_active : bool
}.

(** [str.replace(pattern, replacement)] for a string pattern: the first
    occurrence only. *)
Fixpoint replace_first (pattern replacement s : string) : string :=
  if String.prefix pattern s then
    replacement ++ String.substring (String.length pattern) (String.length s) s
  else match s with
       | EmptyString => EmptyString
       | String c rest => String c (replace_first pattern replacement rest)
       end.

(** A JavaScript string used as a condition: the empty string is falsy. *)
Definition truthy (s : option string) : option string :=
  match s with
  | Some EmptyString => None
  | other => other
  end.

(** [req.header('Authorization')?.replace('Bearer ', '') || req.cookies?.token],
    as the test [if (!token)] sees it. *)
Definition request_token (authorization cookie : option string) : option string :=
  match truthy (replace_first "Bearer " "" <$> authorization) with
  | Some t => Some t
  | None => truthy cookie
  end.

Section Tokens.

(** [jwt.verify(token, process.env.JWT_SECRET).userId], [None] when it
    throws. *)
Variable jwt_verify : string → option Z.

(** The body of [verifyToken], up to the answer [verifyToken] gives. *)
Definition authenticate (users : gmap Z account)
    (authorization cookie : option string) : token_check :=
  match request_token authorization cookie with
  | None => no_token
  | Some token =>
    match jwt_verify token with
    | None => token_invalid
    | Some uid =>
      match users !! uid with
      | None => token_user_missing
      | Some acct =>
        if is_active acct then token_user {| u_id := uid; u_role := acct_role acct |}
        else account_deactivated
      end
    end
  end.

(** [optionalAuth]: [req.user] when it calls [next()]; it never answers. *)
Definition optionalAuth (users : gmap Z account)
    (authorization cookie : option string) : option user :=
  match request_token authorization cookie with
  | None => None
  | Some token =>
    match jwt_verify token with
    | None => None
    | Some uid =>
      match users !! uid with
      | None => None
      | Some acct =>
        if is_active acct then Some {| u_id := uid; u_role := acct_role acct |}
        else None
      end
    end
  end.

End Tokens.

(** ** The routes as the routers and server.js mount them *)

(** What a client can attach to a request to say who it is. *)
Record credentials := {
  authorization : option string;
  cookie : option string
}.

(** A request to [PUT /api/adoptions/:id/status]: credentials, the id of
    the path, and the body. *)
Record status_call := {
  status_credentials : credentials;
  path_id : Z;
  sent_status : option string;
  sent_notes : option string
}.

(** [router.put('/:id/status', [requireStaff, body('status')...,
    body('admin_notes')...], handler)] under
    [app.use('/api/adoptions', require('./routes/adoptions'))]: nothing
    before [requireStaff] reads the credentials or assigns [req.user]. *)
Definition status_route (c : status_call) (now : Z) (db : database)
    : response * database :=
  put_status {| status_user := None; status_id := path_id c;
                status_body := sent_status c; status_notes := sent_notes c |}
             now db.

(** A request to [PUT /api/animals/:id]. *)
Record animal_call := {
  animal_credentials : credentials;
  sent_errors : list string;
  animal_path_id : Z;
  sent_is_available : option bool;
  sent_fields : gmap string json
}.

(** [router.put('/:id', [requireStaff, ...], handler)] under
    [app.use('/api/animals', require('./routes/animals'))]. *)
Definition animal_route (c : animal_call) (now : Z) (db : database)
    : response * database :=
  put_animal {| animal_user := None; animal_errors := sent_errors c;
                animal_param_id := animal_path_id c;
                body_is_available := sent_is_available c;
                body_fields := sent_fields c |}
             now db.

(** A request to [DELETE /api/animals/:id]. *)
Record animal_delete_call := {
  delete_credentials : credentials;
  delete_path_id : Z
}.

(** [router.delete('/:id', requireAdmin, handler)]. *)
Definition delete_animal_route (c : animal_delete_call) (db : database)
    : response * database :=
  delete_animal {| remover := None; remove_id := delete_path_id c |} db.

(** The requests that reach a writing route of the two routers.  The
    routes [POST /api/adoptions] and [DELETE /api/adoptions/:id] have
    [verifyToken] in their chain. *)
Inductive call :=
| call_submit (req : create_request)
| call_status (c : status_call)
| call_delete (req : delete_request)
| call_edit_animal (c : animal_call)
| call_delete_animal (c : animal_delete_call).

Definition answer (c : call) (now : Z) (db : database) : response * database :=
  match c with
  | call_submit req => post_adoption req now db
  | call_status c => status_route c now db
  | call_delete req => delete_adoption req db
  | call_edit_animal c => animal_route c now db
  | call_delete_animal c => delete_animal_route c db
  end.

(** The databases the server can get to from [init] by answering
    requests. *)
Inductive produced (init : database) : database → Prop :=
| produced_init : produced init init
| produced_step db c now : produced init db → produced init (answer c now db).2.

(** ** The handlers as a transition system *)

(** The handlers that write [adoption_applications], run on any request
    object. *)
Inductive operation :=
| op_create (req : create_request)
| op_transition (req : status_request)
| op_delete (req : delete_request).

(** One handler run at time [now]. *)
Definition perform (o : operation) (now : Z) (db : database)
    : response * database :=
  match o with
  | op_create req => post_adoption req now db
  | op_transition req => put_status req now db
  | op_delete req => delete_adoption req db
  end.

(** Handlers run one after the other; the clock advances by one each. *)
Fixpoint run (script : list operation) (now : Z) (db : database) : database :=
  match script with
  | [] => db
  | o :: rest => run rest (now + 1) (perform o now db).2
  end.

(** The databases the three handlers can leave, starting from [init], when
    run on request objects of any content.  This is more than the server
    can get to ([produced]): the request objects include those with
    [req.user] set, which the status route never hands to its handler. *)
Inductive reachable (init : database) : database → Prop :=
| reachable_init : reachable init init
| reachable_step db o now :
    reachable init db → reachable init (perform o now db).2.

(** [SELECT COUNT( * ) FROM adoption_applications
     WHERE animal_id = ? AND status = 'approved'] *)
Definition approved_on (aid : Z) (db : database) : nat :=
  size (filter (λ kv : Z * adoption_application,
                  animal_id kv.2 = aid ∧ status kv.2 = approved)
               (adoption_applications db)).

(** ** A small shelter *)

Module Shelter.

(** Animal 7, available, and no application yet. *)
Definition opening : database :=
  {| animals := {[ 7 := {| is_available := true; updated_at := 0; columns := ∅ |} ]};
     adoption_applications := ∅;
     auto_increment := 1 |}.

(** A questionnaire with every field filled in. *)
Definition questionnaire : application_form :=
  {| housing_type := "house"; has_yard := true; has_other_pets := false;
     other_pets_description := Some "none";
     experience_with_pets := "Grew up with two dogs";
     reason_for_adoption := "Looking for a companion";
     work_schedule := "Weekdays, home by six";
     emergency_contact_name := "Sam Doe";
     emergency_contact_phone := "5551234567";
     veterinarian_name := Some "Dr. Vet";
     veterinarian_phone := Some "5557654321" |}.

Definition staff : user := {| u_id := 100; u_role := role_admin |}.

(** The [users] table: user 100 is an active admin. *)
Definition accounts : gmap Z account :=
  {[ 100 := {| acct_role := role_admin; is_active := true |} ]}.

(** A token verifier under which ["staff-token"] is a token of user 100. *)
Definition verify (token : string) : option Z :=
  if String.eqb token "staff-token" then Some 100 else None.

(** The credentials of user 100. *)
Definition staff_credentials : credentials :=
  {| authorization := Some "Bearer staff-token"; cookie := None |}.

(** User [uid], token verified, applies for animal 7. *)
Definition apply_for_7 (uid : Z) : create_request :=
  {| create_token := token_user {| u_id := uid; u_role := role_user |};
     create_errors := [];
     create_animal_id := 7;
     create_form := questionnaire |}.

(** User 100 asks for application [id] to be set to [st]. *)
Definition staff_asks (id : Z) (st : string) : status_call :=
  {| status_credentials := staff_credentials; path_id := id;
     sent_status := Some st; sent_notes := Some "reviewed" |}.

(** User 100 asks for animal [aid] to be edited, sending only
    [is_available]. *)
Definition staff_edits (aid : Z) (b : bool) : animal_call :=
  {| animal_credentials := staff_credentials; sent_errors := [];
     animal_path_id := aid; sent_is_available := Some b; sent_fields := ∅ |}.

(** A request object for the status handler on which [req.user] already
    holds the staff user.  The status route never builds one: it is an
    input of the handler, not of the server. *)
Definition set_status (id : Z) (st : string) : status_request :=
  {| status_user := Some staff; status_id := id;
     status_body := Some st; status_notes := Some "reviewed" |}.

(** User 100, token verified, deletes application [id]. *)
Definition staff_delete (id : Z) : delete_request :=
  {| delete_token := token_user staff; delete_id := id |}.

(** Users 1 and 2 have applied for animal 7 (applications 1 and 2). *)
Definition two_pending : database :=
  run [op_create (apply_for_7 1); op_create (apply_for_7 2)] 10 opening.

Definition application_of (uid : Z) (st : app_status) (date : Z)
    (reviewed : option Z) (notes : option string) : adoption_application :=
  {| user_id := uid; animal_id := 7; status := st; form := questionnaire;
     application_date := date; reviewed_by := reviewed;
     reviewed_date := (λ _, 12) <$> reviewed; admin_notes := notes |}.

(** Tables in which application 1 is approved, application 2 is rejected
    and animal 7 is not available.  The server does not get there from
    [two_pending]; the rows are given. *)
Definition one_approved : database :=
  {| animals := {[ 7 := {| is_available := false; updated_at := 12; columns := ∅ |} ]};
     adoption_applications :=
       {[ 1 := application_of 1 approved 10 (Some 100) (Some "reviewed");
          2 := application_of 2 rejected 11 (Some 100) (Some Sql.adopted_note) ]};
     auto_increment := 3 |}.



End Shelter.

(** ** All the routes that write the two tables *)

Inductive write_request :=
| to_adoptions (o : operation)
| to_put_animal (req : animal_request)
| to_delete_animal (req : animal_delete_request).

Definition serve (w : write_request) (now : Z) (db : database)
    : response * database :=
  match w with
  | to_adoptions o => perform o now db
  | to_put_animal req => put_animal req now db
  | to_delete_animal req => delete_animal req db
  end.

(** The databases that requests on the five routes can produce from
    [init]. *)
Inductive served (init : database) : database → Prop :=
| served_init : served init init
| served_step db w now : served init db → served init (serve w now db).2.

(** Every application id is below the AUTO_INCREMENT counter. *)
Definition ids_below_counter (db : database) : Prop :=
  map_Forall (λ k _, k < auto_increment db) (adoption_applications db).

(** [FOREIGN KEY (animal_id) REFERENCES animals(id)] *)
Definition references_exist (db : database) : Prop :=
  map_Forall (λ _ a, is_Some (animals db !! animal_id a))
             (adoption_applications db).

(** * Properties *)

(** ** What each statement does to a single row *)

Section Statements.
Context (db : database).

Lemma lookup_update_status id st notes reviewer now k :
  adoption_applications (Sql.update_status id st notes reviewer now db) !! k =
  if decide (id = k)
  then Sql.review st notes reviewer now <$> adoption_applications db !! k
  else adoption_applications db !! k.
Proof.
  unfold Sql.update_status; simpl. rewrite lookup_alter.
  destruct (decide (id = k)) as [->|?]; reflexivity.
Qed.

Lemma lookup_reject_other_pending reviewer aid id now k :
  adoption_applications (Sql.reject_other_pending reviewer aid id now db) !! k =
  (λ a, if bool_decide (animal_id a = aid ∧ k ≠ id ∧ status a = pending)
        then Sql.review rejected (Some Sql.adopted_note) reviewer now a
        else a) <$> adoption_applications db !! k.
Proof.
  unfold Sql.reject_other_pending; simpl. rewrite map_lookup_imap.
  destruct (adoption_applications db !! k); reflexivity.
Qed.

Lemma lookup_update_availability aid b now k :
  animals (Sql.update_availability aid b now db) !! k =
  if decide (aid = k)
  then Sql.set_available b now <$> animals db !! k
  else animals db !! k.
Proof.
  unfold Sql.update_availability; simpl. rewrite lookup_alter.
  destruct (decide (aid = k)) as [->|?]; reflexivity.
Qed.

Lemma is_available_set_available b now a :
  is_available (Sql.set_available b now a) = b.
Proof.
  unfold Sql.set_available. case_bool_decide; [assumption | reflexivity].
Qed.

End Statements.

(** The effect blocks leave the tables they do not name alone. *)

Lemma approval_effects_skip st current reviewer aid id now db :
  st ≠ approved ∨ current = approved →
  approval_effects st current reviewer aid id now db = db.
Proof.
  intros H. unfold approval_effects.
  destruct H as [H| ->].
  - rewrite (bool_decide_eq_false_2 _ H). reflexivity.
  - rewrite (bool_decide_eq_true_2 (approved = approved) eq_refl).
    rewrite andb_false_r. reflexivity.
Qed.

Lemma approval_effects_fire current reviewer aid id now db :
  current ≠ approved →
  approval_effects approved current reviewer aid id now db =
  Sql.reject_other_pending reviewer aid id now
    (Sql.update_availability aid false now db).
Proof.
  intros H. unfold approval_effects.
  rewrite (bool_decide_eq_false_2 _ H). reflexivity.
Qed.

Lemma release_effects_skip st current aid now db :
  (st ≠ rejected ∧ st ≠ completed) ∨ current ≠ approved →
  release_effects st current aid now db = db.
Proof.
  intros H. unfold release_effects.
  destruct H as [[H1 H2]|H].
  - rewrite (bool_decide_eq_false_2 _ H1), (bool_decide_eq_false_2 _ H2).
    reflexivity.
  - rewrite (bool_decide_eq_false_2 _ H), andb_false_r. reflexivity.
Qed.

Lemma release_effects_fire st aid now db :
  st = rejected ∨ st = completed →
  release_effects st approved aid now db = Sql.update_availability aid true now db.
Proof.
  intros H. unfold release_effects.
  replace (bool_decide (st = rejected) || bool_decide (st = completed)) with true.
  - reflexivity.
  - destruct H as [-> | ->]; reflexivity.
Qed.

(** A request object that passes [requireStaff] and the validators, names an
    existing application and carries notes, runs the three blocks in
    order. *)
Lemma put_status_accepted req now db reviewer st app :
  requireStaff (status_user req) = inr reviewer →
  validated_status req = Some st →
  adoption_applications db !! status_id req = Some app →
  is_Some (status_notes req) →
  put_status req now db =
  (json_response 200 true ("Application " ++ string_of_status st ++ " successfully"),
   release_effects st (status app) (animal_id app) now
     (approval_effects st (status app) (u_id reviewer) (animal_id app)
        (status_id req) now
        (Sql.update_status (status_id req) st (status_notes req)
           (u_id reviewer) now db))).
Proof.
  intros Hstaff Hvalid Happ [notes Hnotes].
  unfold put_status, Sql.select_application.
  rewrite Hstaff, Hvalid, Happ, Hnotes. reflexivity.
Qed.

(** ** Failures write nothing *)

(** C8. Whenever the status route answers with a failure (401 or 403 from
    [requireStaff], 400 from the validators, 404 for a missing application,
    and also the 500 of a refused bind parameter), the database is the one
    it started from. *)
Theorem put_status_failure_writes_nothing req now db :
  success (put_status req now db).1 = false →
  (put_status req now db).2 = db.
Proof.
  unfold put_status.
  destruct (requireStaff (status_user req)) as [resp|reviewer]; [reflexivity|].
  destruct (validated_status req) as [st|]; [|reflexivity].
  destruct (Sql.select_application (status_id req) db) as [app|]; [|reflexivity].
  destruct (negb (Sql.all_defined [status_notes req])); [reflexivity|].
  cbn [fst snd json_response success]. discriminate.
Qed.

Lemma put_status_failure_writes_nothing_witness :
  (put_status (Shelter.set_status 99 "approved") 12 Shelter.two_pending).2 =
  Shelter.two_pending.
Proof.
  apply (put_status_failure_writes_nothing
           (Shelter.set_status 99 "approved") 12 Shelter.two_pending).
  reflexivity.
Defined.

(** ** Deleting an application *)

Lemma approved_on_delete id app db :
  adoption_applications db !! id = Some app →
  status app = approved →
  approved_on (animal_id app) (Sql.delete_application id db) =
  pred (approved_on (animal_id app) db).
Proof.
  intros Happ Happroved. unfold approved_on, Sql.delete_application.
  cbn [adoption_applications].
  rewrite map_filter_delete. apply map_size_delete_Some.
  exists app. apply map_lookup_filter_Some. split; [assumption|].
  cbn [snd]. split; [reflexivity | assumption].
Qed.

(** C10. Deleting an existing application never writes [animals] and leaves
    every other application alone; the request succeeds and the row is gone
    unless the requester is a plain user who does not own the application or
    whose application is no longer pending.  In particular, after the
    deletion of an approved application the animal is as unavailable as
    before although it has one approved application less. *)
Theorem delete_leaves_animal req db app :
  adoption_applications db !! delete_id req = Some app →
  let out := delete_adoption req db in
  animals out.2 = animals db ∧
  (∀ k, k ≠ delete_id req →
        adoption_applications out.2 !! k = adoption_applications db !! k) ∧
  (∀ usr, verifyToken (delete_token req) = inr usr →
          (u_role usr = role_user →
           user_id app = u_id usr ∧ status app = pending) →
          success out.1 = true ∧
          adoption_applications out.2 !! delete_id req = None ∧
          (status app = approved →
           approved_on (animal_id app) out.2 =
             pred (approved_on (animal_id app) db) ∧
           ∀ beast, animals db !! animal_id app = Some beast →
                    is_available beast = false →
                    ∃ beast', animals out.2 !! animal_id app = Some beast' ∧
                              is_available beast' = false)).
Proof.
  intros Happ out. subst out. unfold delete_adoption, Sql.select_application.
  rewrite Happ.
  destruct (verifyToken (delete_token req)) as [resp|usr] eqn:Htoken.
  { cbn [fst snd]. split; [reflexivity|]. split; [reflexivity|]. intros u [=]. }
  assert (Hdone :
    let out := (json_response 200 true "Application deleted successfully",
                Sql.delete_application (delete_id req) db) in
    animals out.2 = animals db ∧
    (∀ k, k ≠ delete_id req →
          adoption_applications out.2 !! k = adoption_applications db !! k) ∧
    success out.1 = true ∧
    adoption_applications out.2 !! delete_id req = None ∧
    (status app = approved →
     approved_on (animal_id app) out.2 = pred (approved_on (animal_id app) db) ∧
     ∀ beast, animals db !! animal_id app = Some beast →
              is_available beast = false →
              ∃ beast', animals out.2 !! animal_id app = Some beast' ∧
                        is_available beast' = false)).
  { cbn [fst snd Sql.delete_application animals adoption_applications success
         json_response].
    split; [reflexivity|]. split; [|split; [reflexivity|split]].
    - intros k Hk. apply lookup_delete_ne. congruence.
    - apply lookup_delete_eq.
    - intros Happroved. split.
      + apply (approved_on_delete _ _ _ Happ Happroved).
      + intros beast Hbeast Hflag. exists beast. split; assumption. }
  destruct Hdone as (Hanimals & Hothers & Hdeleted).
  destruct (bool_decide (u_role usr = role_user)) eqn:Hrole; cbn [andb].
  - apply bool_decide_eq_true_1 in Hrole.
    destruct (bool_decide (user_id app = u_id usr)) eqn:Howner; cbn [negb].
    + destruct (bool_decide (status app = pending)) eqn:Hpending; cbn [negb].
      * split; [exact Hanimals|]. split; [exact Hothers|].
        intros _ _ _. exact Hdeleted.
      * cbn [fst snd]. split; [reflexivity|]. split; [reflexivity|].
        intros usr' [= <-] Hallowed. destruct (Hallowed Hrole) as [_ Hp].
        apply bool_decide_eq_false_1 in Hpending. contradiction.
    + cbn [fst snd]. split; [reflexivity|]. split; [reflexivity|].
      intros usr' [= <-] Hallowed. destruct (Hallowed Hrole) as [Ho _].
      apply bool_decide_eq_false_1 in Howner. contradiction.
  - split; [exact Hanimals|]. split; [exact Hothers|].
    intros _ _ _. exact Hdeleted.
Qed.

Lemma delete_leaves_animal_witness :
  animals (delete_adoption (Shelter.staff_delete 1) Shelter.one_approved).2 =
  animals Shelter.one_approved.
Proof.
  exact (proj1 (delete_leaves_animal
                  (Shelter.staff_delete 1) Shelter.one_approved
                  {| user_id := 1; animal_id := 7; status := approved;
                     form := Shelter.questionnaire; application_date := 10;
                     reviewed_by := Some 100; reviewed_date := Some 12;
                     admin_notes := Some "reviewed" |}
                  eq_refl)).
Defined.

(** ** Creating an application *)

Lemma has_pending_true uid aid db k app :
  adoption_applications db !! k = Some app →
  user_id app = uid → animal_id app = aid → status app = pending →
  Sql.has_pending uid aid db = true.
Proof.
  intros Happ Huser Hanimal Hstatus. unfold Sql.has_pending, Sql.pending_of.
  apply bool_decide_eq_true_2. intros Hempty.
  assert (Hin : filter (λ kv : Z * adoption_application,
                          user_id kv.2 = uid ∧ animal_id kv.2 = aid ∧
                          status kv.2 = pending)
                       (adoption_applications db) !! k = Some app).
  { apply map_lookup_filter_Some. cbn [snd]. auto. }
  rewrite Hempty, lookup_empty in Hin. discriminate.
Qed.




(** * Further properties of the routes *)

(** ** The gates of middleware/auth.js *)

(** X1. [requireStaff] lets through exactly the requests whose [req.user]
    is not a plain user, which is the test the handlers themselves make
    ([req.user.role === 'user']); whoever passes [requireAdmin] passes
    [requireStaff], as the same user. *)
Theorem staff_gate u usr :
  (requireStaff u = inr usr ↔ u = Some usr ∧ u_role usr ≠ role_user) ∧
  (requireAdmin u = inr usr → requireStaff u = inr usr).
Proof.
  unfold requireStaff, requireAdmin, requireRole.
  destruct u as [who|]; [|split; [split; [discriminate | intros [[=] _]] | discriminate]].
  destruct (decide (u_role who = role_user)) as [Huser|Hstaff].
  - rewrite !bool_decide_eq_false_2
      by (rewrite Huser, !elem_of_cons, elem_of_nil; intuition discriminate).
    split; [split; [discriminate | intros [[= ->] H]; contradiction] | discriminate].
  - rewrite (bool_decide_eq_true_2 (u_role who ∈ [role_admin; role_volunteer]))
      by (rewrite !elem_of_cons; destruct (u_role who); auto; contradiction).
    split; [split|].
    + intros [= <-]. auto.
    + intros [[= ->] _]. reflexivity.
    + case_bool_decide; [trivial | discriminate].
Qed.

(** ** The status strings *)

(** X2. The validator of the status route accepts exactly the four labels of
    the ENUM column, each denoting its own value: parsing a string gives a
    status if and only if the string is the label of that status. *)
Theorem status_label_round_trip s st :
  status_of_string s = Some st ↔ s = string_of_status st.
Proof.
  split.
  - unfold status_of_string.
    destruct (String.eqb_spec s "pending") as [->|_]; [intros [= <-]; reflexivity|].
    destruct (String.eqb_spec s "approved") as [->|_]; [intros [= <-]; reflexivity|].
    destruct (String.eqb_spec s "rejected") as [->|_]; [intros [= <-]; reflexivity|].
    destruct (String.eqb_spec s "completed") as [->|_]; [intros [= <-]; reflexivity|].
    discriminate.
  - intros ->. destruct st; reflexivity.
Qed.

(** ** What the status route can reach *)

Lemma release_effects_applications st current aid now db :
  adoption_applications (release_effects st current aid now db) =
  adoption_applications db.
Proof. unfold release_effects. case_match; reflexivity. Qed.

Lemma approval_effects_animals st current reviewer aid id now db k :
  animals (approval_effects st current reviewer aid id now db) !! k =
  animals db !! k ∨
  (k = aid ∧ st = approved ∧ current ≠ approved ∧
   animals (approval_effects st current reviewer aid id now db) !! k =
   Sql.set_available false now <$> animals db !! k).
Proof.
  unfold approval_effects.
  destruct (bool_decide (st = approved)) eqn:Hst; cbn [andb]; [|left; reflexivity].
  destruct (bool_decide (current = approved)) eqn:Hcur; cbn [negb]; [left; reflexivity|].
  apply bool_decide_eq_true_1 in Hst. apply bool_decide_eq_false_1 in Hcur.
  unfold Sql.reject_other_pending; cbn [animals].
  rewrite lookup_update_availability.
  destruct (decide (aid = k)) as [->|]; [right; auto | left; reflexivity].
Qed.

Lemma release_effects_animals st current aid now db k :
  animals (release_effects st current aid now db) !! k = animals db !! k ∨
  (k = aid ∧ current = approved ∧
   animals (release_effects st current aid now db) !! k =
   Sql.set_available true now <$> animals db !! k).
Proof.
  unfold release_effects.
  destruct (bool_decide (st = rejected) || bool_decide (st = completed));
    cbn [andb]; [|left; reflexivity].
  destruct (bool_decide (current = approved)) eqn:Hcur; [|left; reflexivity].
  apply bool_decide_eq_true_1 in Hcur.
  rewrite lookup_update_availability.
  destruct (decide (aid = k)) as [->|]; [right; auto | left; reflexivity].
Qed.

(** Each row after a request on the status route: untouched, reviewed as
    the request says, or rejected by the cascade. *)
Lemma put_status_row req now db k :
  let db' := (put_status req now db).2 in
  adoption_applications db' !! k = adoption_applications db !! k ∨
  (k = status_id req ∧
   ∃ reviewer st a,
     requireStaff (status_user req) = inr reviewer ∧
     validated_status req = Some st ∧
     adoption_applications db !! k = Some a ∧
     adoption_applications db' !! k =
       Some (Sql.review st (status_notes req) (u_id reviewer) now a)) ∨
  (k ≠ status_id req ∧
   ∃ reviewer app a,
     requireStaff (status_user req) = inr reviewer ∧
     validated_status req = Some approved ∧
     adoption_applications db !! status_id req = Some app ∧
     status app ≠ approved ∧
     adoption_applications db !! k = Some a ∧
     animal_id a = animal_id app ∧ status a = pending ∧
     adoption_applications db' !! k =
       Some (Sql.review rejected (Some Sql.adopted_note) (u_id reviewer) now a)).
Proof.
  intros db'. subst db'.
  destruct (requireStaff (status_user req)) as [resp|reviewer] eqn:Hstaff;
    [unfold put_status; rewrite Hstaff; left; reflexivity|].
  destruct (validated_status req) as [st|] eqn:Hvalid;
    [|unfold put_status; rewrite Hstaff, Hvalid; left; reflexivity].
  destruct (adoption_applications db !! status_id req) as [app|] eqn:Happ;
    [|unfold put_status, Sql.select_application;
      rewrite Hstaff, Hvalid, Happ; left; reflexivity].
  destruct (status_notes req) as [notes|] eqn:Hnotes;
    [|unfold put_status, Sql.select_application;
      rewrite Hstaff, Hvalid, Happ, Hnotes; left; reflexivity].
  rewrite (put_status_accepted _ _ _ _ _ _ Hstaff Hvalid Happ)
    by (rewrite Hnotes; eauto).
  cbn [snd]. rewrite ?Hnotes.
  rewrite release_effects_applications.
  unfold approval_effects.
  destruct (bool_decide (st = approved)) eqn:Hst; cbn [andb].
  - apply bool_decide_eq_true_1 in Hst. subst st.
    destruct (bool_decide (status app = approved)) eqn:Hcur; cbn [negb].
    + rewrite lookup_update_status.
      destruct (decide (status_id req = k)) as [<-|Hk]; [|left; reflexivity].
      right. left. split; [reflexivity|]. exists reviewer, approved, app.
      rewrite Happ. auto.
    + apply bool_decide_eq_false_1 in Hcur.
      rewrite lookup_reject_other_pending.
      unfold Sql.update_availability; cbn [adoption_applications].
      rewrite lookup_update_status.
      destruct (decide (status_id req = k)) as [<-|Hk].
      * right. left. split; [reflexivity|]. exists reviewer, approved, app.
        rewrite Happ. cbn [fmap option_fmap option_map].
        rewrite bool_decide_eq_false_2 by (intros (_ & Hne & _); congruence).
        auto.
      * destruct (adoption_applications db !! k) as [a|] eqn:Ha;
          cbn [fmap option_fmap option_map]; [|left; reflexivity].
        case_bool_decide as Hcond; [|left; reflexivity].
        destruct Hcond as (Hsame & _ & Hpend).
        right. right. split; [congruence|]. exists reviewer, app, a. auto 10.
  - rewrite lookup_update_status.
    destruct (decide (status_id req = k)) as [<-|Hk]; [|left; reflexivity].
    right. left. split; [reflexivity|]. exists reviewer, st, app.
    rewrite Happ. auto.
Qed.

(** X3. The status route never inserts or deletes an application and never
    moves the counter; whatever it does to a row, the applicant, the animal,
    the questionnaire and the application date of the row stay. *)
Theorem put_status_keeps_identity req now db k :
  let db' := (put_status req now db).2 in
  auto_increment db' = auto_increment db ∧
  (adoption_applications db' !! k = None ↔ adoption_applications db !! k = None) ∧
  (∀ a', adoption_applications db' !! k = Some a' →
         ∃ a, adoption_applications db !! k = Some a ∧
              user_id a' = user_id a ∧ animal_id a' = animal_id a ∧
              form a' = form a ∧ application_date a' = application_date a).
Proof.
  intros db'. split.
  - subst db'. unfold put_status.
    repeat case_match; try reflexivity.
    unfold release_effects, approval_effects. repeat case_match; reflexivity.
  - destruct (put_status_row req now db k)
      as [Hsame | [(_ & r & st & a & _ & _ & Ha & Ha') | (_ & r & app & a & _ & _ & _ & _ & Ha & _ & _ & Ha')]];
      fold db' in Hsame || fold db' in Ha'.
    + rewrite Hsame. split; [reflexivity|]. intros a' Ha'. exists a'. auto.
    + rewrite Ha, Ha'. split; [split; discriminate|].
      intros a' [= <-]. exists a. auto.
    + rewrite Ha, Ha'. split; [split; discriminate|].
      intros a' [= <-]. exists a. auto.
Qed.

(** X4. The only applications a request on the status route changes, beside
    the one it names, are applications that were pending on the same animal
    as the named one, and only when the request approves: they end up
    rejected.  Applications on other animals, and applications that were not
    pending, are left as they are. *)
Theorem put_status_cascade_scope req now db k other other' :
  k ≠ status_id req →
  adoption_applications db !! k = Some other →
  adoption_applications (put_status req now db).2 !! k = Some other' →
  other' = other ∨
  (validated_status req = Some approved ∧
   status other = pending ∧ status other' = rejected ∧
   ∃ app, adoption_applications db !! status_id req = Some app ∧
          animal_id other = animal_id app).
Proof.
  intros Hk Hother Hother'.
  destruct (put_status_row req now db k)
    as [Hsame | [(Heq & _) | (_ & r & app & a & _ & Hv & Happ & _ & Ha & Hsame & Hpend & Ha')]].
  - left. congruence.
  - contradiction.
  - right. rewrite Hother in Ha. injection Ha as <-.
    rewrite Hother' in Ha'. injection Ha' as ->.
    split; [assumption|]. split; [assumption|]. split; [reflexivity|].
    exists app. auto.
Qed.

Lemma put_status_cascade_scope_witness :
  let other := {| user_id := 2; animal_id := 7; status := pending;
                  form := Shelter.questionnaire; application_date := 11;
                  reviewed_by := None; reviewed_date := None;
                  admin_notes := None |} in
  let other' := Sql.review rejected (Some Sql.adopted_note) 100 12 other in
  other' = other ∨
  (validated_status (Shelter.set_status 1 "approved") = Some approved ∧
   status other = pending ∧ status other' = rejected ∧
   ∃ app, adoption_applications Shelter.two_pending
            !! status_id (Shelter.set_status 1 "approved") = Some app ∧
          animal_id other = animal_id app).
Proof.
  apply (put_status_cascade_scope
           (Shelter.set_status 1 "approved") 12 Shelter.two_pending 2);
    [discriminate | reflexivity | reflexivity].
Defined.

(** The animal rows after a request on the status route: untouched, or the
    animal of the named application with its flag set. *)
Lemma put_status_animal_row req now db aid :
  let db' := (put_status req now db).2 in
  animals db' !! aid = animals db !! aid ∨
  ∃ app b,
    adoption_applications db !! status_id req = Some app ∧
    animal_id app = aid ∧
    animals db' !! aid = Sql.set_available b now <$> animals db !! aid.
Proof.
  intros db'. subst db'.
  destruct (requireStaff (status_user req)) as [resp|reviewer] eqn:Hstaff;
    [unfold put_status; rewrite Hstaff; left; reflexivity|].
  destruct (validated_status req) as [st|] eqn:Hvalid;
    [|unfold put_status; rewrite Hstaff, Hvalid; left; reflexivity].
  destruct (adoption_applications db !! status_id req) as [app|] eqn:Happ;
    [|unfold put_status, Sql.select_application;
      rewrite Hstaff, Hvalid, Happ; left; reflexivity].
  destruct (status_notes req) as [notes|] eqn:Hnotes;
    [|unfold put_status, Sql.select_application;
      rewrite Hstaff, Hvalid, Happ, Hnotes; left; reflexivity].
  rewrite (put_status_accepted _ _ _ _ _ _ Hstaff Hvalid Happ)
    by (rewrite Hnotes; eauto).
  cbn [snd]. rewrite ?Hnotes.
  set (db1 := Sql.update_status _ _ _ _ _ db).
  assert (Hdb1 : animals db1 = animals db) by reflexivity.
  destruct (release_effects_animals st (status app) (animal_id app) now
              (approval_effects st (status app) (u_id reviewer) (animal_id app)
                 (status_id req) now db1) aid)
    as [Hrel | (-> & Hcur & Hrel)]; rewrite Hrel.
  - destruct (approval_effects_animals st (status app) (u_id reviewer)
                (animal_id app) (status_id req) now db1 aid)
      as [Happr | (-> & _ & _ & Happr)]; rewrite Happr, Hdb1.
    + left; reflexivity.
    + right. exists app, false. auto.
  - rewrite approval_effects_skip by (right; assumption). rewrite Hdb1.
    right. exists app, true. auto.
Qed.

(** X5. The status route can change one animal only, the animal of the
    application it names, and of that animal only [is_available] and
    [updated_at]: it creates and deletes no animal and leaves every other
    column alone. *)
Theorem put_status_animal_scope req now db aid :
  let db' := (put_status req now db).2 in
  animals db' !! aid = animals db !! aid ∨
  ∃ app beast beast',
    adoption_applications db !! status_id req = Some app ∧
    animal_id app = aid ∧
    animals db !! aid = Some beast ∧
    animals db' !! aid = Some beast' ∧
    columns beast' = columns beast.
Proof.
  intros db'.
  destruct (put_status_animal_row req now db aid)
    as [Hsame | (app & b & Happ & Haid & Hrow)]; fold db' in Hsame || fold db' in Hrow.
  - left. assumption.
  - destruct (animals db !! aid) as [beast|] eqn:Hbeast;
      [|left; rewrite Hrow; reflexivity].
    right. exists app, beast, (Sql.set_available b now beast).
    repeat split; try assumption.
    unfold Sql.set_available. case_match; reflexivity.
Qed.

(** ** Submitting an application *)



(** An accepted submission went through every check and ran the INSERT. *)
Lemma post_adoption_accepted req now db :
  success (post_adoption req now db).1 = true →
  ∃ usr beast,
    verifyToken (create_token req) = inr usr ∧
    create_errors req = [] ∧
    animals db !! create_animal_id req = Some beast ∧
    is_available beast = true ∧
    Sql.has_pending (u_id usr) (create_animal_id req) db = false ∧
    Sql.all_defined [other_pets_description (create_form req);
                     veterinarian_name (create_form req);
                     veterinarian_phone (create_form req)] = true ∧
    post_adoption req now db =
    (json_response 201 true "Adoption application submitted successfully",
     (Sql.insert_application (u_id usr) (create_animal_id req)
                             (create_form req) now db).2).
Proof.
  unfold post_adoption, Sql.select_animal.
  destruct (verifyToken (create_token req)) as [resp|usr] eqn:Htoken.
  { destruct (create_token req); cbn in Htoken; try discriminate;
      injection Htoken as <-; discriminate. }
  destruct (create_errors req) as [|e es]; [|discriminate].
  destruct (animals db !! create_animal_id req) as [beast|]; [|discriminate].
  destruct (is_available beast) eqn:Hflag; cbn [negb]; [|discriminate].
  destruct (Sql.has_pending (u_id usr) (create_animal_id req) db) eqn:Hdup;
    [discriminate|].
  destruct (Sql.all_defined _) eqn:Hbinds; cbn [negb]; [|discriminate].
  intros _. exists usr, beast. auto 10.
Qed.



(** X8. An accepted submission is answered 201 and stores one new row under
    the id the counter shows: pending, with the applicant, the animal, the
    questionnaire and the date of the request and no review; the counter
    moves by one and the animals are not written. *)
Theorem post_adoption_created req now db usr :
  verifyToken (create_token req) = inr usr →
  success (post_adoption req now db).1 = true →
  let out := post_adoption req now db in
  out.1 = json_response 201 true "Adoption application submitted successfully" ∧
  adoption_applications out.2 =
    <[auto_increment db :=
        {| user_id := u_id usr; animal_id := create_animal_id req;
           status := pending; form := create_form req;
           application_date := now; reviewed_by := None;
           reviewed_date := None; admin_notes := None |}]>
      (adoption_applications db) ∧
  auto_increment out.2 = auto_increment db + 1 ∧
  animals out.2 = animals db.
Proof.
  intros Htoken. unfold post_adoption. rewrite Htoken.
  destruct (create_errors req) as [|e es]; [|discriminate].
  destruct (Sql.select_animal (create_animal_id req) db) as [beast|]; [|discriminate].
  destruct (negb (is_available beast)); [discriminate|].
  destruct (Sql.has_pending (u_id usr) (create_animal_id req) db); [discriminate|].
  destruct (Sql.all_defined _); cbn [negb]; [|discriminate].
  intros _. cbn. auto.
Qed.

Lemma post_adoption_created_witness :
  auto_increment (post_adoption (Shelter.apply_for_7 1) 10 Shelter.opening).2 = 2.
Proof.
  exact (proj1 (proj2 (proj2 (post_adoption_created
            (Shelter.apply_for_7 1) 10 Shelter.opening
            {| u_id := 1; u_role := role_user |} eq_refl eq_refl)))).
Defined.

(** X9. Submitting twice: once a submission has been accepted, the same
    applicant asking again for the same animal is answered 400 "You already
    have a pending application for this animal" and nothing is stored, at
    whatever time and with whatever questionnaire. *)
Theorem second_submission_refused req1 req2 now1 now2 db usr :
  verifyToken (create_token req1) = inr usr →
  success (post_adoption req1 now1 db).1 = true →
  verifyToken (create_token req2) = inr usr →
  create_animal_id req2 = create_animal_id req1 →
  create_errors req2 = [] →
  let db1 := (post_adoption req1 now1 db).2 in
  post_adoption req2 now2 db1 =
  (json_response 400 false
     "You already have a pending application for this animal", db1).
Proof.
  intros Htoken1 Hok Htoken2 Hsame Hvalid db1.
  destruct (post_adoption_accepted req1 now1 db Hok)
    as (usr' & beast & Htoken1' & _ & Hbeast & Hflag & _ & _ & Hrun).
  assert (usr' = usr) as -> by congruence.
  subst db1. rewrite Hrun. cbn [snd Sql.insert_application].
  unfold post_adoption, Sql.select_animal.
  rewrite Htoken2, Hvalid, Hsame. cbn [animals]. rewrite Hbeast, Hflag.
  cbn [negb].
  erewrite (has_pending_true (u_id usr) (create_animal_id req1) _
              (auto_increment db));
    [reflexivity | cbn [adoption_applications]; apply lookup_insert_eq
     | reflexivity ..].
Qed.

Lemma second_submission_refused_witness :
  post_adoption (Shelter.apply_for_7 1) 11
    (post_adoption (Shelter.apply_for_7 1) 10 Shelter.opening).2 =
  (json_response 400 false
     "You already have a pending application for this animal",
   (post_adoption (Shelter.apply_for_7 1) 10 Shelter.opening).2).
Proof.
  exact (second_submission_refused
           (Shelter.apply_for_7 1) (Shelter.apply_for_7 1) 10 11 Shelter.opening
           {| u_id := 1; u_role := role_user |}
           eq_refl eq_refl eq_refl eq_refl eq_refl).
Defined.

(** ** Failures of the other routes *)

(** X10. On the routes that submit an application, delete an application,
    edit an animal and delete an animal, every answer that is not a success
    leaves the database as it was: each check comes before the first
    write. *)
Theorem failures_write_nothing db now :
  (∀ req, success (post_adoption req now db).1 = false →
          (post_adoption req now db).2 = db) ∧
  (∀ req, success (delete_adoption req db).1 = false →
          (delete_adoption req db).2 = db) ∧
  (∀ req, success (put_animal req now db).1 = false →
          (put_animal req now db).2 = db) ∧
  (∀ req, success (delete_animal req db).1 = false →
          (delete_animal req db).2 = db).
Proof.
  repeat split; intros req.
  - unfold post_adoption. repeat case_match; try reflexivity.
    cbn. discriminate.
  - unfold delete_adoption. repeat case_match; try reflexivity.
    cbn. discriminate.
  - unfold put_animal. repeat case_match; try reflexivity.
    cbn. discriminate.
  - unfold delete_animal. repeat case_match; try reflexivity.
    cbn. discriminate.
Qed.

(** ** Deleting an application, as a plain user and twice *)

(** X11. A plain user cannot delete an application of somebody else (403
    "Access denied") nor an application of their own that is no longer
    pending (400 "Cannot delete non-pending applications"); the application
    stays. *)
Theorem delete_adoption_user_limits req db usr app :
  verifyToken (delete_token req) = inr usr →
  u_role usr = role_user →
  adoption_applications db !! delete_id req = Some app →
  user_id app ≠ u_id usr ∨ status app ≠ pending →
  delete_adoption req db =
  (if bool_decide (user_id app = u_id usr)
   then json_response 400 false "Cannot delete non-pending applications"
   else json_response 403 false "Access denied",
   db).
Proof.
  intros Htoken Hrole Happ Hcase.
  unfold delete_adoption, Sql.select_application.
  rewrite Htoken, Happ, Hrole.
  rewrite (bool_decide_eq_true_2 (role_user = role_user) eq_refl). cbn [andb].
  destruct (bool_decide (user_id app = u_id usr)) eqn:Howner; cbn [negb];
    [|reflexivity].
  apply bool_decide_eq_true_1 in Howner.
  destruct Hcase as [Hne|Hne]; [contradiction|].
  rewrite (bool_decide_eq_false_2 _ Hne). reflexivity.
Qed.

Lemma delete_adoption_user_limits_witness :
  delete_adoption {| delete_token := token_user {| u_id := 2; u_role := role_user |};
                     delete_id := 1 |} Shelter.two_pending =
  (if bool_decide (1 = 2)
   then json_response 400 false "Cannot delete non-pending applications"
   else json_response 403 false "Access denied",
   Shelter.two_pending).
Proof.
  apply (delete_adoption_user_limits
           {| delete_token := token_user {| u_id := 2; u_role := role_user |};
              delete_id := 1 |}
           Shelter.two_pending {| u_id := 2; u_role := role_user |}
           {| user_id := 1; animal_id := 7; status := pending;
              form := Shelter.questionnaire; application_date := 10;
              reviewed_by := None; reviewed_date := None;
              admin_notes := None |});
    [reflexivity | reflexivity | reflexivity | left; discriminate].
Defined.

(** X12. Deleting twice: after a deletion that succeeded, the same request
    is answered 404 "Application not found" and changes nothing. *)
Theorem delete_adoption_twice req db :
  success (delete_adoption req db).1 = true →
  let db1 := (delete_adoption req db).2 in
  delete_adoption req db1 = (json_response 404 false "Application not found", db1).
Proof.
  intros Hok db1.
  assert (Hgone : (∃ usr, verifyToken (delete_token req) = inr usr) ∧
                  adoption_applications db1 !! delete_id req = None).
  { subst db1. revert Hok. unfold delete_adoption, Sql.select_application.
    destruct (verifyToken (delete_token req)) as [resp|usr] eqn:Htoken.
    { destruct (delete_token req); cbn in Htoken; try discriminate;
        injection Htoken as <-; discriminate. }
    destruct (adoption_applications db !! delete_id req) as [app|]; [|discriminate].
    repeat case_match; try discriminate.
    intros _. split; [eauto|].
    cbn [snd Sql.delete_application adoption_applications].
    apply lookup_delete_eq. }
  destruct Hgone as [[usr Htoken] Hgone].
  unfold delete_adoption at 1. unfold Sql.select_application.
  rewrite Htoken, Hgone. reflexivity.
Qed.

Lemma delete_adoption_twice_witness :
  delete_adoption (Shelter.staff_delete 1)
    (delete_adoption (Shelter.staff_delete 1) Shelter.two_pending).2 =
  (json_response 404 false "Application not found",
   (delete_adoption (Shelter.staff_delete 1) Shelter.two_pending).2).
Proof.
  exact (delete_adoption_twice (Shelter.staff_delete 1) Shelter.two_pending eq_refl).
Defined.

(** ** Invariants of the stored tables *)

Lemma post_adoption_shape req now db :
  (post_adoption req now db).2 = db ∨
  ∃ usr, is_Some (animals db !! create_animal_id req) ∧
         (post_adoption req now db).2 =
         (Sql.insert_application (u_id usr) (create_animal_id req)
                                 (create_form req) now db).2.
Proof.
  destruct (success (post_adoption req now db).1) eqn:Hok.
  - destruct (post_adoption_accepted req now db Hok)
      as (usr & beast & _ & _ & Hbeast & _ & _ & _ & Hrun).
    right. exists usr. rewrite Hrun, Hbeast. eauto.
  - left. revert Hok. unfold post_adoption.
    repeat case_match; try reflexivity. cbn. discriminate.
Qed.

Lemma delete_adoption_shape req db :
  (delete_adoption req db).2 = db ∨
  (delete_adoption req db).2 = Sql.delete_application (delete_id req) db.
Proof. unfold delete_adoption. repeat case_match; auto. Qed.

Lemma put_animal_shape req now db :
  (put_animal req now db).2 = db ∨
  (put_animal req now db).2 =
  {| animals := alter (set_fields req now) (animal_param_id req) (animals db);
     adoption_applications := adoption_applications db;
     auto_increment := auto_increment db |}.
Proof. unfold put_animal. repeat case_match; auto. Qed.

Lemma delete_animal_shape req db :
  (delete_animal req db).2 = db ∨
  (delete_animal req db).2 =
  {| animals := delete (remove_id req) (animals db);
     adoption_applications :=
       filter (λ kv : Z * adoption_application, animal_id kv.2 ≠ remove_id req)
              (adoption_applications db);
     auto_increment := auto_increment db |}.
Proof.
  unfold delete_animal, Sql.delete_animal_cascade, Sql.select_animal.
  destruct (requireAdmin (remover req)); [auto|].
  destruct (animals db !! remove_id req); auto.
Qed.

Lemma put_status_counter req now db :
  auto_increment (put_status req now db).2 = auto_increment db.
Proof.
  unfold put_status. repeat case_match; try reflexivity.
  unfold release_effects, approval_effects. repeat case_match; reflexivity.
Qed.

(** One request: the counter does not go back. *)
Lemma serve_counter w now db :
  (auto_increment db ≤ auto_increment (serve w now db).2)%Z.
Proof.
  destruct w as [[req|req|req]|req|req]; cbn [serve perform].
  - destruct (post_adoption_shape req now db) as [-> | (usr & _ & ->)];
      cbn; lia.
  - rewrite put_status_counter. lia.
  - destruct (delete_adoption_shape req db) as [-> | ->]; cbn; lia.
  - destruct (put_animal_shape req now db) as [-> | ->]; cbn; lia.
  - destruct (delete_animal_shape req db) as [-> | ->]; cbn; lia.
Qed.

(** One request: a row of the result was there before, on the same animal,
    or it is the row just inserted under the id the counter showed, for an
    animal that exists. *)
Lemma serve_rows w now db k a' :
  adoption_applications (serve w now db).2 !! k = Some a' →
  (∃ a, adoption_applications db !! k = Some a ∧ animal_id a' = animal_id a) ∨
  (k = auto_increment db ∧
   auto_increment (serve w now db).2 = auto_increment db + 1 ∧
   is_Some (animals db !! animal_id a')).
Proof.
  destruct w as [[req|req|req]|req|req]; cbn [serve perform].
  - destruct (post_adoption_shape req now db) as [-> | (usr & Hbeast & ->)].
    + intros Ha. left. eauto.
    + cbn [snd Sql.insert_application adoption_applications auto_increment].
      rewrite lookup_insert. case_decide as Hk.
      * intros [= <-]. right. split; [congruence|]. split; [reflexivity|].
        exact Hbeast.
      * intros Ha. left. eauto.
  - intros Ha'. left.
    destruct (put_status_row req now db k)
      as [Hsame | [(_ & r & st & a & _ & _ & Ha & Hrow)
                  | (_ & r & app & a & _ & _ & _ & _ & Ha & _ & _ & Hrow)]].
    + rewrite Hsame in Ha'. eauto.
    + rewrite Hrow in Ha'. injection Ha' as <-. eauto.
    + rewrite Hrow in Ha'. injection Ha' as <-. eauto.
  - destruct (delete_adoption_shape req db) as [-> | ->].
    + intros Ha. left. eauto.
    + cbn [Sql.delete_application adoption_applications].
      intros [_ Ha]%lookup_delete_Some. left. eauto.
  - destruct (put_animal_shape req now db) as [-> | ->];
      cbn [adoption_applications]; intros Ha; left; eauto.
  - destruct (delete_animal_shape req db) as [-> | ->].
    + intros Ha. left. eauto.
    + cbn [adoption_applications].
      intros [Ha _]%map_lookup_filter_Some. left. eauto.
Qed.

(** One request: an animal that an application of the result refers to is
    still there if it was there before. *)
Lemma serve_animal w now db k a' :
  adoption_applications (serve w now db).2 !! k = Some a' →
  is_Some (animals db !! animal_id a') →
  is_Some (animals (serve w now db).2 !! animal_id a').
Proof.
  destruct w as [[req|req|req]|req|req]; cbn [serve perform].
  - destruct (post_adoption_shape req now db) as [-> | (usr & _ & ->)]; auto.
  - intros _ Hthere.
    destruct (put_status_animal_row req now db (animal_id a'))
      as [-> | (app & b & _ & _ & ->)]; [assumption|].
    apply fmap_is_Some. assumption.
  - destruct (delete_adoption_shape req db) as [-> | ->]; auto.
  - destruct (put_animal_shape req now db) as [-> | ->]; [auto|].
    cbn [animals]. intros _ Hthere.
    rewrite lookup_alter. case_decide as Hk; [rewrite Hk; apply fmap_is_Some|]; exact Hthere.
  - destruct (delete_animal_shape req db) as [-> | ->]; [auto|].
    cbn [animals adoption_applications].
    intros [_ Hne]%map_lookup_filter_Some Hthere. cbn [snd] in Hne.
    rewrite lookup_delete_ne by congruence. assumption.
Qed.

(** X13. Application ids stay below the AUTO_INCREMENT counter, and the
    counter never goes back, whatever requests the five writing routes
    serve; so the id the next submission will take is always free and a
    submission never overwrites an application. *)
Theorem ids_stay_below_counter init db :
  ids_below_counter init →
  served init db →
  ids_below_counter db ∧
  (auto_increment init ≤ auto_increment db)%Z ∧
  adoption_applications db !! auto_increment db = None.
Proof.
  intros Hinit Hserved.
  assert (Hinv : ids_below_counter db ∧
                 (auto_increment init ≤ auto_increment db)%Z).
  { induction Hserved as [|db w now _ [IHids IHcounter]].
    - split; [assumption | lia].
    - pose proof (serve_counter w now db) as Hmono.
      split; [|lia].
      intros k a' Ha'.
      destruct (serve_rows w now db k a' Ha') as [(a & Ha & _) | (-> & Hnext & _)].
      + specialize (IHids k a Ha). cbn in IHids. lia.
      + lia. }
  destruct Hinv as [Hids Hcounter]. repeat split; try assumption.
  destruct (adoption_applications db !! auto_increment db) as [a|] eqn:Ha;
    [|reflexivity].
  specialize (Hids _ _ Ha). cbn in Hids. lia.
Qed.

Lemma ids_stay_below_counter_witness :
  adoption_applications
    (serve (to_adoptions (op_create (Shelter.apply_for_7 1))) 10 Shelter.opening).2
    !! auto_increment
         (serve (to_adoptions (op_create (Shelter.apply_for_7 1))) 10
                Shelter.opening).2 = None.
Proof.
  refine (proj2 (proj2 (ids_stay_below_counter Shelter.opening _ _ _))).
  - apply map_Forall_empty.
  - apply served_step. apply served_init.
Defined.

(** X14. The foreign key of [adoption_applications.animal_id] holds in the
    model without being assumed: if every application refers to an existing
    animal, it still does after any requests on the five writing routes
    (a submission checks the animal, deleting an animal takes its
    applications along). *)
Theorem references_stay_valid init db :
  references_exist init →
  served init db →
  references_exist db.
Proof.
  intros Hinit Hserved. induction Hserved as [|db w now _ IH]; [assumption|].
  intros k a' Ha'. cbn.
  apply (serve_animal w now db k a' Ha').
  destruct (serve_rows w now db k a' Ha') as [(a & Ha & Hsame) | (_ & _ & Hbeast)].
  - rewrite Hsame. exact (IH k a Ha).
  - exact Hbeast.
Qed.

Lemma references_stay_valid_witness :
  references_exist
    (serve (to_adoptions (op_delete (Shelter.staff_delete 1))) 13
       (serve (to_adoptions (op_create (Shelter.apply_for_7 3))) 12
              Shelter.two_pending).2).2.
Proof.
  apply (references_stay_valid Shelter.two_pending).
  - intros k a Ha. cbn.
    assert (Hrow : a = Shelter.application_of 1 pending 10 None None ∨
                   a = Shelter.application_of 2 pending 11 None None).
    { revert Ha.
      change (adoption_applications Shelter.two_pending) with
        (<[2 := Shelter.application_of 2 pending 11 None None]>
           (<[1 := Shelter.application_of 1 pending 10 None None]>
              (∅ : gmap Z adoption_application))).
      rewrite !lookup_insert. repeat case_decide; rewrite ?lookup_empty;
        intros [= <-]; auto. }
    destruct Hrow as [-> | ->]; eexists; reflexivity.
  - apply served_step. apply served_step. apply served_init.
Defined.

(** X15. The id of a deleted application never comes back: after a deletion
    that succeeded, no sequence of requests on the writing routes stores an
    application under that id again. *)
Theorem deleted_id_never_returns req db db' :
  ids_below_counter db →
  success (delete_adoption req db).1 = true →
  served (delete_adoption req db).2 db' →
  adoption_applications db' !! delete_id req = None.
Proof.
  intros Hids Hok Hserved.
  assert (Hstart : adoption_applications (delete_adoption req db).2
                     !! delete_id req = None ∧
                   delete_id req < auto_increment (delete_adoption req db).2).
  { revert Hok. unfold delete_adoption, Sql.select_application.
    destruct (verifyToken (delete_token req)) as [resp|usr] eqn:Htoken.
    { destruct (delete_token req); cbn in Htoken; try discriminate;
        injection Htoken as <-; discriminate. }
    destruct (adoption_applications db !! delete_id req) as [app|] eqn:Happ;
      [|discriminate].
    specialize (Hids _ _ Happ). cbn in Hids.
    repeat case_match; try discriminate. intros _.
    cbn [snd Sql.delete_application adoption_applications auto_increment].
    split; [apply lookup_delete_eq | exact Hids]. }
  enough (Hinv : adoption_applications db' !! delete_id req = None ∧
                 delete_id req < auto_increment db') by exact (proj1 Hinv).
  induction Hserved as [|db1 w now _ [IHnone IHbelow]]; [exact Hstart|].
  pose proof (serve_counter w now db1) as Hmono. split; [|lia].
  destruct (adoption_applications (serve w now db1).2 !! delete_id req)
    as [a'|] eqn:Ha'; [|reflexivity].
  destruct (serve_rows w now db1 _ a' Ha') as [(a & Ha & _) | (Hk & _)].
  - congruence.
  - lia.
Qed.

Lemma deleted_id_never_returns_witness :
  adoption_applications
    (serve (to_adoptions (op_create (Shelter.apply_for_7 1))) 20
       (delete_adoption (Shelter.staff_delete 1) Shelter.two_pending).2).2
    !! 1 = None.
Proof.
  apply (deleted_id_never_returns (Shelter.staff_delete 1) Shelter.two_pending).
  - intros k a Ha. cbn.
    destruct (decide (k = 1)) as [->|]; [reflexivity|].
    destruct (decide (k = 2)) as [->|]; [reflexivity|].
    exfalso. revert Ha.
    change (adoption_applications Shelter.two_pending) with
      (<[2 := {| user_id := 2; animal_id := 7; status := pending;
                 form := Shelter.questionnaire; application_date := 11;
                 reviewed_by := None; reviewed_date := None;
                 admin_notes := None |}]>
         (<[1 := {| user_id := 1; animal_id := 7; status := pending;
                    form := Shelter.questionnaire; application_date := 10;
                    reviewed_by := None; reviewed_date := None;
                    admin_notes := None |}]>
            (∅ : gmap Z adoption_application))).
    rewrite !lookup_insert_ne, lookup_empty by congruence. discriminate.
  - reflexivity.
  - apply served_step. apply served_init.
Defined.

(** X16. The three application routes never create or delete an animal and
    never touch a column of an animal other than [is_available] and
    [updated_at], however many requests they serve. *)
Theorem adoption_routes_keep_animals init db aid :
  reachable init db →
  match animals init !! aid, animals db !! aid with
  | Some beast, Some beast' => columns beast' = columns beast
  | None, None => True
  | _, _ => False
  end.
Proof.
  intros Hreach. induction Hreach as [|db o now _ IH].
  - destruct (animals init !! aid); auto.
  - assert (Hstep : animals (perform o now db).2 !! aid = animals db !! aid ∨
                    ∃ b, animals (perform o now db).2 !! aid =
                         Sql.set_available b now <$> animals db !! aid).
    { destruct o as [req|req|req]; cbn [perform].
      - left. destruct (post_adoption_shape req now db) as [-> | (usr & _ & ->)];
          reflexivity.
      - destruct (put_status_animal_row req now db aid)
          as [Hsame | (app & b & _ & _ & Hrow)]; eauto.
      - left. destruct (delete_adoption_shape req db) as [-> | ->]; reflexivity. }
    destruct Hstep as [-> | [b ->]]; [exact IH|].
    destruct (animals init !! aid) as [beast|],
             (animals db !! aid) as [beast1|]; cbn; try exact IH.
    rewrite <- IH. unfold Sql.set_available. case_match; reflexivity.
Qed.

Lemma adoption_routes_keep_animals_witness :
  match animals Shelter.opening !! 7,
        animals (perform (op_create (Shelter.apply_for_7 1)) 10 Shelter.opening).2 !! 7
  with
  | Some beast, Some beast' => columns beast' = columns beast
  | None, None => True
  | _, _ => False
  end.
Proof.
  apply (adoption_routes_keep_animals Shelter.opening).
  apply reachable_step. apply reachable_init.
Defined.

(** ** Reading applications *)

(** X20. [GET /api/adoptions/:id] hands out an application exactly when the
    token is verified, the application and its animal exist, and the
    requester is either not a plain user or the applicant: a plain user
    never receives the application of somebody else. *)
Theorem get_adoption_discloses req db a :
  (get_adoption req db).2 = Some a ↔
  ∃ usr,
    verifyToken (read_token req) = inr usr ∧
    adoption_applications db !! read_id req = Some a ∧
    is_Some (animals db !! animal_id a) ∧
    (u_role usr = role_user → user_id a = u_id usr).
Proof.
  unfold get_adoption, Sql.select_application_joined. split.
  - destruct (verifyToken (read_token req)) as [resp|usr]; [discriminate|].
    destruct (adoption_applications db !! read_id req) as [row|]; [|discriminate].
    destruct (animals db !! animal_id row) as [beast|] eqn:Hbeast; [|discriminate].
    destruct (bool_decide (u_role usr = role_user)) eqn:Hrole; cbn [andb].
    + destruct (bool_decide (user_id row = u_id usr)) eqn:Howner; cbn [negb];
        [|discriminate].
      apply bool_decide_eq_true_1 in Howner.
      intros [= <-]. exists usr. rewrite Hbeast. eauto 10.
    + apply bool_decide_eq_false_1 in Hrole.
      intros [= <-]. exists usr. rewrite Hbeast.
      repeat split; eauto. intros Huser. contradiction.
  - intros (usr & -> & -> & [beast ->] & Howner).
    destruct (bool_decide (u_role usr = role_user)) eqn:Hrole; cbn [andb];
      [|reflexivity].
    apply bool_decide_eq_true_1 in Hrole.
    rewrite (bool_decide_eq_true_2 _ (Howner Hrole)). reflexivity.
Qed.



(** ** Tokens *)

Section TokenProperties.

Variable jwt_verify : string → option Z.

(** X22. [verifyToken] lets a request through as [usr] exactly when the
    request carries a token, the token verifies to the id of a row of
    [users], and that row is active; the role of [req.user] is the role of
    the row at the time of the request, not a role stored in the token. *)
Theorem verifyToken_admits users authorization cookie usr :
  verifyToken (authenticate jwt_verify users authorization cookie) = inr usr ↔
  ∃ token acct,
    request_token authorization cookie = Some token ∧
    jwt_verify token = Some (u_id usr) ∧
    users !! u_id usr = Some acct ∧
    is_active acct = true ∧
    u_role usr = acct_role acct.
Proof.
  unfold authenticate. split.
  - destruct (request_token authorization cookie) as [token|]; [|discriminate].
    destruct (jwt_verify token) as [uid|] eqn:Hjwt; [|discriminate].
    destruct (users !! uid) as [acct|] eqn:Hacct; [|discriminate].
    destruct (is_active acct) eqn:Hactive; [|discriminate].
    intros [= <-]. exists token, acct. auto.
  - intros (token & acct & -> & -> & -> & -> & Hrole).
    destruct usr as [uid r]. cbn in *. subst r. reflexivity.
Qed.

(** X23. [optionalAuth] sets [req.user] for exactly the requests that
    [verifyToken] lets through, and to the same user; for every other
    request it goes on without a user. *)
Theorem optionalAuth_agrees users authorization cookie usr :
  optionalAuth jwt_verify users authorization cookie = Some usr ↔
  verifyToken (authenticate jwt_verify users authorization cookie) = inr usr.
Proof.
  unfold optionalAuth, authenticate.
  destruct (request_token authorization cookie) as [token|];
    [|split; discriminate].
  destruct (jwt_verify token) as [uid|]; [|split; discriminate].
  destruct (users !! uid) as [acct|]; [|split; discriminate].
  destruct (is_active acct); [|split; discriminate].
  cbn. split; intros [= <-]; reflexivity.
Qed.

End TokenProperties.




(** * The routes as mounted *)

(** ** The three gated routes *)

(** Whatever the request carries, [requireStaff] and [requireAdmin] find no
    [req.user], answer 401 and the handler does not run. *)
Lemma status_route_refuses c now db :
  status_route c now db = (json_response 401 false "Authentication required.", db).
Proof. reflexivity. Qed.

Lemma animal_route_refuses c now db :
  animal_route c now db = (json_response 401 false "Authentication required.", db).
Proof. reflexivity. Qed.

Lemma delete_animal_route_refuses c db :
  delete_animal_route c db = (json_response 401 false "Authentication required.", db).
Proof. reflexivity. Qed.

(** What the status handler does once a gate has let a staff user through
    with notes: the approval and its cascade, and the release. *)
Lemma handler_approval_cascades req now db reviewer app beast :
  requireStaff (status_user req) = inr reviewer →
  validated_status req = Some approved →
  is_Some (status_notes req) →
  adoption_applications db !! status_id req = Some app →
  status app = pending →
  animals db !! animal_id app = Some beast →
  let out := put_status req now db in
  success out.1 = true ∧
  (∃ app', adoption_applications out.2 !! status_id req = Some app' ∧
           status app' = approved ∧
           reviewed_by app' = Some (u_id reviewer) ∧
           admin_notes app' = status_notes req) ∧
  (∃ beast', animals out.2 !! animal_id app = Some beast' ∧
             is_available beast' = false) ∧
  (∀ k other,
     k ≠ status_id req →
     adoption_applications db !! k = Some other →
     animal_id other = animal_id app →
     status other = pending →
     ∃ other', adoption_applications out.2 !! k = Some other' ∧
               status other' = rejected ∧
               admin_notes other' = Some "Animal was adopted by another applicant" ∧
               reviewed_by other' = Some (u_id reviewer)).
Proof.
  intros Hstaff Hvalid Hnotes Happ Hpending Hbeast out. subst out.
  rewrite (put_status_accepted _ _ _ _ _ _ Hstaff Hvalid Happ Hnotes).
  rewrite Hpending.
  rewrite release_effects_skip by (left; split; discriminate).
  rewrite approval_effects_fire by discriminate.
  cbn [fst snd]. split; [reflexivity|]. split; [|split].
  - eexists. split.
    + rewrite lookup_reject_other_pending.
      unfold Sql.update_availability; cbn [adoption_applications].
      rewrite lookup_update_status, Happ.
      rewrite decide_True by reflexivity. cbn [fmap option_fmap option_map].
      rewrite bool_decide_eq_false_2 by (intros (_ & Hne & _); congruence).
      reflexivity.
    + simpl. auto.
  - exists (Sql.set_available false now beast). split.
    + unfold Sql.reject_other_pending; cbn [animals].
      rewrite lookup_update_availability; cbn [animals Sql.update_status].
      rewrite decide_True by reflexivity. rewrite Hbeast. reflexivity.
    + apply is_available_set_available.
  - intros k other Hk Hother Hsame Hpend.
    eexists. split.
    + rewrite lookup_reject_other_pending.
      unfold Sql.update_availability; cbn [adoption_applications].
      rewrite lookup_update_status, Hother.
      rewrite decide_False by congruence. cbn [fmap option_fmap option_map].
      rewrite bool_decide_eq_true_2 by auto.
      reflexivity.
    + simpl. auto.
Qed.

Lemma handler_release_frees req now db reviewer st app beast :
  requireStaff (status_user req) = inr reviewer →
  validated_status req = Some st →
  is_Some (status_notes req) →
  st = rejected ∨ st = completed →
  adoption_applications db !! status_id req = Some app →
  status app = approved →
  animals db !! animal_id app = Some beast →
  let out := put_status req now db in
  success out.1 = true ∧
  ∃ beast', animals out.2 !! animal_id app = Some beast' ∧
            is_available beast' = true.
Proof.
  intros Hstaff Hvalid Hnotes Hst Happ Happroved Hbeast out. subst out.
  rewrite (put_status_accepted _ _ _ _ _ _ Hstaff Hvalid Happ Hnotes).
  rewrite Happroved.
  rewrite approval_effects_skip by (right; reflexivity).
  rewrite release_effects_fire by assumption.
  cbn [fst snd]. split; [reflexivity|].
  exists (Sql.set_available true now beast). split.
  - rewrite lookup_update_availability; cbn [animals Sql.update_status].
    rewrite decide_True by reflexivity. rewrite Hbeast. reflexivity.
  - apply is_available_set_available.
Qed.

(** C3 fails on the route.  Applications 1 and 2 are pending on animal 7,
    which is available.  User 100 is an active admin whose token
    [verifyToken] accepts, and whom [requireStaff] would let through.  The
    request of user 100 to approve application 1, notes included, is
    answered 401 "Authentication required." and nothing is written:
    application 1 is still pending, application 2 is not rejected, animal 7
    is still available. *)
Theorem staff_approval_is_refused :
  let db := Shelter.two_pending in
  let out := status_route (Shelter.staff_asks 1 "approved") 12 db in
  verifyToken (authenticate Shelter.verify Shelter.accounts
                 (authorization Shelter.staff_credentials)
                 (cookie Shelter.staff_credentials)) = inr Shelter.staff ∧
  requireStaff (Some Shelter.staff) = inr Shelter.staff ∧
  status <$> adoption_applications db !! 1 = Some pending ∧
  status <$> adoption_applications db !! 2 = Some pending ∧
  out.1 = json_response 401 false "Authentication required." ∧
  status <$> adoption_applications out.2 !! 1 = Some pending ∧
  status <$> adoption_applications out.2 !! 2 = Some pending ∧
  is_available <$> animals out.2 !! 7 = Some true.
Proof. vm_compute. repeat split; reflexivity. Qed.












(** ** What the server can do to the tables *)

(** One answered request leaves the database as it is, inserts a pending
    application without review under the id of the counter, or deletes one
    application. *)
Lemma answer_shape c now db :
  (answer c now db).2 = db ∨
  (∃ uid aid f,
     (answer c now db).2 = (Sql.insert_application uid aid f now db).2) ∨
  (∃ id, (answer c now db).2 = Sql.delete_application id db).
Proof.
  destruct c as [req|c|req|c|c]; cbn [answer].
  - destruct (post_adoption_shape req now db) as [-> | (usr & _ & ->)]; eauto 10.
  - rewrite status_route_refuses. auto.
  - destruct (delete_adoption_shape req db) as [-> | ->]; eauto.
  - rewrite animal_route_refuses. auto.
  - rewrite delete_animal_route_refuses. auto.
Qed.





(** X26. Through the server the animals are never written and no
    application is ever reviewed: in every state the server gets to, the
    animals are those of the state it started from, and every application
    either was there from the start, unchanged, or is a submission that
    is still pending, with no reviewer, review date or notes. *)
Theorem server_only_submits_and_deletes init db :
  produced init db →
  animals db = animals init ∧
  ∀ k a, adoption_applications db !! k = Some a →
         adoption_applications init !! k = Some a ∨
         (status a = pending ∧ reviewed_by a = None ∧
          reviewed_date a = None ∧ admin_notes a = None).
Proof.
  intros Hproduced. induction Hproduced as [|db c now _ [IHanimals IHrows]].
  - auto.
  - destruct (answer_shape c now db)
      as [-> | [(uid & aid & f & ->) | (id & ->)]].
    + auto.
    + cbn [snd Sql.insert_application animals adoption_applications].
      split; [assumption|]. intros k a. rewrite lookup_insert.
      case_decide; [intros [= <-]; right; auto | apply IHrows].
    + cbn [Sql.delete_application animals adoption_applications].
      split; [assumption|]. intros k a [_ Ha]%lookup_delete_Some.
      apply IHrows. assumption.
Qed.

Lemma server_only_submits_and_deletes_witness :
  animals
    (answer (call_edit_animal (Shelter.staff_edits 7 false)) 12
       (answer (call_status (Shelter.staff_asks 1 "approved")) 11
          (answer (call_submit (Shelter.apply_for_7 1)) 10
                  Shelter.opening).2).2).2 =
  animals Shelter.opening.
Proof.
  refine (proj1 (server_only_submits_and_deletes Shelter.opening _ _)).
  do 3 apply produced_step. apply produced_init.
Defined.
